(** * PatchGuard: the backup / patch / restore protocol of
      [scripts/8kHz_polling.py]

    The script is a PlatformIO pre-build hook.  It restores a left-over
    backup of the vendor header [usb_desc.h], backs the header up, rewrites
    one [#define] in place, and registers [restore_backup] to run after the
    build.  This file embeds the script block by block and proves the
    properties of the protocol.

    Modelling conventions.
    - The file system is a finite map from path names to file contents.
      Contents are the text Python's text-mode I/O hands to the script
      (encoding and newline translation are not modelled);
      [shutil.copy] copies a content verbatim.
    - Every I/O call of the script takes a [fault], chosen by the
      environment: the call either goes through, or raises [IOError]
      (Python's alias of [OSError]) and possibly leaves the file it was
      writing damaged.  Opening a missing file for reading, or removing
      it, raises [FileNotFoundError], an [IOError] too.  The text-mode
      read can also fail to decode the header's bytes: Python then raises
      [UnicodeDecodeError], which is no [IOError].
    - [print] appends a line to [stdout]; [exit(1)] raises [SystemExit]. *)

From Stdlib Require Import ZArith Ascii.
From stdpp Require Import base strings list gmap fin_maps.

Open Scope string_scope.

(** ** Python's [str] operations used by the script *)

Module PyStr.

(** [s.startswith(p)] *)
Fixpoint startswith (p s : string) : bool :=
  match p, s with
  | EmptyString, _ => true
  | String _ _, EmptyString => false
  | String a p', String b s' => if Ascii.eqb a b then startswith p' s' else false
  end.

(** [old in s]: some position of [s] starts an occurrence of [old]
    (the empty string occurs everywhere, also in the empty string). *)
Fixpoint contains (old s : string) : bool :=
  match s with
  | EmptyString => startswith old EmptyString
  | String _ s' => startswith old s || contains old s'
  end.

(** [s.replace(old, new)]: scan left to right; at an occurrence of [old]
    emit [new] and jump over the occurrence, otherwise emit the character.
    [skip] counts the characters of the current occurrence still to jump
    over.  For the empty [old] Python puts [new] before every character and
    at the end. *)
Fixpoint replace_from (old new : string) (skip : nat) (s : string) : string :=
  match s with
  | EmptyString =>
      match skip, old with
      | O, EmptyString => new
      | _, _ => EmptyString
      end
  | String c s' =>
      match skip with
      | S k => replace_from old new k s'
      | O =>
          match old with
          | EmptyString => new +:+ String c (replace_from old new 0 s')
          | String _ old' =>
              if startswith old s
              then new +:+ replace_from old new (String.length old') s'
              else String c (replace_from old new 0 s')
          end
      end
  end.

Definition replace (old new s : string) : string := replace_from old new 0 s.

(** [s[n:]] *)
Fixpoint drop (n : nat) (s : string) : string :=
  match n, s with
  | O, _ => s
  | S _, EmptyString => EmptyString
  | S k, String _ s' => drop k s'
  end.

(** [c in s] for a single character. *)
Fixpoint has_char (c : Ascii.ascii) (s : string) : bool :=
  match s with
  | EmptyString => false
  | String a s' => Ascii.eqb c a || has_char c s'
  end.

(** [a] and [b] differ at a position they both have. *)
Fixpoint diverge (a b : string) : bool :=
  match a, b with
  | String x a', String y b' => if Ascii.eqb x y then diverge a' b' else true
  | _, _ => false
  end.

(** A sufficient, checkable condition for a rule never to produce a new
    occurrence of its match text: both texts start with the same
    character, which occurs nowhere else in either, and they differ
    somewhere before the shorter one ends. *)
Definition stable_rule (old new : string) : bool :=
  match old, new with
  | String h old', String h' new' =>
      Ascii.eqb h h' && negb (has_char h old') && negb (has_char h new')
      && diverge old' new'
  | _, _ => false
  end.

End PyStr.

(** ** [os.path.join], POSIX flavour *)

Definition ends_with_sep (a : string) : bool :=
  PyStr.startswith "/" (String.rev a).

Definition os_path_join (a b : string) : string :=
  if PyStr.startswith "/" b then b
  else if (String.eqb a "" || ends_with_sep a)%bool then a +:+ b
  else a +:+ "/" +:+ b.

(** ** The world the script runs in *)

Record world := World {
  files : gmap string string;   (* path |-> content *)
  stdout : list string          (* lines printed so far, oldest first *)
}.

Inductive exn :=
  | IOError (msg : string)      (* [IOError] is [OSError] *)
  | SystemExit (code : Z)
  | UnicodeDecodeError (msg : string).
      (* a [ValueError]: [except IOError] does not catch it *)

Inductive result (A : Type) :=
  | Ret (a : A)
  | Raise (e : exn).
Arguments Ret {A} a.
Arguments Raise {A} e.

(** What the environment does to one I/O call. *)
Inductive fault :=
  | NoFault
  | Fail (msg : string) (damage : option string).
      (* the call raises [IOError(msg)]; with [Some junk] the file being
         written was already opened for writing and is left holding
         [junk] *)

(** A script fragment: a state transformer that returns or raises. *)
Definition io (A : Type) : Type := world → result A * world.

Definition io_ret {A} (a : A) : io A := λ w, (Ret a, w).

Definition io_bind {A B} (m : io A) (k : A → io B) : io B := λ w,
  match m w with
  | (Ret a, w') => k a w'
  | (Raise e, w') => (Raise e, w')
  end.

#[global] Instance io_mret : MRet io := @io_ret.
#[global] Instance io_mbind : MBind io := λ A B k m, io_bind m k.

Definition raise {A} (e : exn) : io A := λ w, (Raise e, w).

(** [try: body  except IOError as e: handler(str(e))] *)
Definition try_except_IOError {A} (body : io A) (handler : string → io A) : io A :=
  λ w,
  match body w with
  | (Raise (IOError msg), w') => handler msg w'
  | r => r
  end.

Definition exec {A} (m : io A) (w : world) : world := (m w).2.
Definition outcome {A} (m : io A) (w : world) : result A := (m w).1.

(** The fragment [m] never changes what the path [p] holds, however it
    ends. *)
Definition leaves {A} (p : string) (m : io A) : Prop :=
  ∀ w, files (exec m w) !! p = files w !! p.

Definition set_file (p c : string) (w : world) : world :=
  World (<[p := c]> (files w)) (stdout w).

Definition del_file (p : string) (w : world) : world :=
  World (delete p (files w)) (stdout w).

(** *** Primitives *)

Definition print (line : string) : io unit := λ w,
  (Ret tt, World (files w) (stdout w ++ [line])).

Definition exit (code : Z) : io unit := raise (SystemExit code).

Definition os_path_exists (p : string) : io bool := λ w,
  (Ret (bool_decide (is_Some (files w !! p))), w).

(** [repr(p)] of a [str], as CPython prints a file name in an [OSError]:
    between apostrophes, or between double quotes when [p] has an
    apostrophe and no double quote; the backslash and the chosen quote are
    escaped, control characters are written [\t], [\n], [\r] or [\xhh].
    Characters outside ASCII are taken to be printable and are copied. *)
Definition apostrophe : Ascii.ascii := "'"%char.
Definition double_quote : Ascii.ascii := "034"%char.
Definition backslash : Ascii.ascii := "\"%char.

Definition hex_digit (n : nat) : Ascii.ascii :=
  match String.get n "0123456789abcdef" with
  | Some c => c
  | None => "0"%char
  end.

Fixpoint repr_body (quote : Ascii.ascii) (s : string) : string :=
  match s with
  | EmptyString => EmptyString
  | String c s' =>
      let rest := repr_body quote s' in
      let n := Ascii.nat_of_ascii c in
      if Ascii.eqb c backslash then String backslash (String backslash rest)
      else if Ascii.eqb c quote then String backslash (String c rest)
      else if Nat.eqb n 9 then String backslash (String "t" rest)
      else if Nat.eqb n 10 then String backslash (String "n" rest)
      else if Nat.eqb n 13 then String backslash (String "r" rest)
      else if (Nat.ltb n 32 || Nat.eqb n 127)%bool then
        String backslash
          (String "x" (String (hex_digit (n / 16)) (String (hex_digit (n mod 16)) rest)))
      else String c rest
  end.

Definition py_repr (s : string) : string :=
  let quote :=
    if (PyStr.has_char apostrophe s && negb (PyStr.has_char double_quote s))%bool
    then double_quote else apostrophe in
  String quote (repr_body quote s +:+ String quote EmptyString).

(** [str(e)] of the [FileNotFoundError] CPython raises for a missing path. *)
Definition enoent (p : string) : string :=
  "[Errno 2] No such file or directory: " +:+ py_repr p.

(** [shutil.copy(src, dst)]: opens [src] for reading, then [dst] for
    writing (creating or truncating it), then copies. *)
Definition shutil_copy (f : fault) (src dst : string) : io unit := λ w,
  match files w !! src with
  | None => (Raise (IOError (enoent src)), w)
  | Some c =>
      match f with
      | NoFault => (Ret tt, set_file dst c w)
      | Fail msg None => (Raise (IOError msg), w)
      | Fail msg (Some junk) => (Raise (IOError msg), set_file dst junk w)
      end
  end.

(** [os.remove(p)] *)
Definition os_remove (f : fault) (p : string) : io unit := λ w,
  match files w !! p with
  | None => (Raise (IOError (enoent p)), w)
  | Some _ =>
      match f with
      | NoFault => (Ret tt, del_file p w)
      | Fail msg _ => (Raise (IOError msg), w)
      end
  end.

(** [with open(p, "r") as f: content = f.read()].  The content of a file
    is the text Python decodes from it; [undecodable] stands for a header
    whose bytes the locale's codec rejects: [open] succeeds and [f.read()]
    raises [UnicodeDecodeError]. *)
Definition read_text (f : fault) (undecodable : option string) (p : string)
    : io string := λ w,
  match files w !! p with
  | None => (Raise (IOError (enoent p)), w)
  | Some c =>
      match f with
      | NoFault =>
          match undecodable with
          | None => (Ret c, w)
          | Some msg => (Raise (UnicodeDecodeError msg), w)
          end
      | Fail msg _ => (Raise (IOError msg), w)
      end
  end.

(** [with open(p, "w") as f: f.write(content)].  The file then holds the
    text written; what reaches the disk is its encoding, each newline
    written as [os.linesep], which the model does not tell apart. *)
Definition write_text (f : fault) (p content : string) : io unit := λ w,
  match f with
  | NoFault => (Ret tt, set_file p content w)
  | Fail msg None => (Raise (IOError msg), w)
  | Fail msg (Some junk) => (Raise (IOError msg), set_file p junk w)
  end.

(** ** The script *)

Section Script.

(** [platform.get_package_dir("framework-arduinoteensy")] *)
Variable framework_dir : string.

Definition core_dir : string :=
  os_path_join (os_path_join framework_dir "cores") "teensy4".
Definition original_header_path : string := os_path_join core_dir "usb_desc.h".
Definition backup_header_path : string := os_path_join core_dir "usb_desc.h.bak".

Definition original_mouse_interval : string := "#define MOUSE_INTERVAL        2".
Definition modified_mouse_interval : string := "#define MOUSE_INTERVAL        1".

(** The faults of the five I/O calls of the backup and patch blocks. *)
Record apply_faults := ApplyFaults {
  f_backup : fault;        (* line 48: copy original -> backup *)
  f_read : fault;          (* lines 56-57 *)
  f_decode : option string;  (* line 57: the header does not decode *)
  f_write : fault;         (* lines 65-66 *)
  f_undo_copy : fault;     (* line 74: copy backup -> original *)
  f_undo_remove : fault    (* line 75 *)
}.

Definition no_faults : apply_faults :=
  ApplyFaults NoFault NoFault None NoFault NoFault NoFault.

(** Lines 41-44, "Safety Check and Restore". *)
Definition ensureClean (f_copy f_remove : fault) : io unit :=
  found ← os_path_exists backup_header_path;
  if found : bool then
    print "PlatformIO: Found old backup. Restoring original file before patching.";;
    shutil_copy f_copy backup_header_path original_header_path;;
    os_remove f_remove backup_header_path
  else mret tt.

(** Lines 47-52, "Create a backup of the original file". *)
Definition create_backup (f : fault) : io unit :=
  try_except_IOError
    (shutil_copy f original_header_path backup_header_path;;
     print "PlatformIO: Backup of original usb_desc.h created.")
    (λ e,
     print ("Error: Could not create backup file: " +:+ e);;
     exit 1).

(** Lines 55-76, "Read, Patch, and Overwrite the Original File", for a
    rule [(matchText, replacementText)]. *)
Definition patch_original (matchText replacementText : string)
    (fl : apply_faults) : io unit :=
  try_except_IOError
    (content ← read_text (f_read fl) (f_decode fl) original_header_path;
     if PyStr.contains matchText content then
       write_text (f_write fl) original_header_path
         (PyStr.replace matchText replacementText content);;
       print "PlatformIO: Original usb_desc.h has been patched for 8kHz."
     else
       print "PlatformIO: MOUSE_INTERVAL not found or already patched. Skipping.")
    (λ e,
     print ("Error: Could not read/write original header file: " +:+ e);;
     shutil_copy (f_undo_copy fl) backup_header_path original_header_path;;
     os_remove (f_undo_remove fl) backup_header_path;;
     exit 1).

(** Lines 47-76 for an arbitrary rule. *)
Definition apply_rule (matchText replacementText : string)
    (fl : apply_faults) : io unit :=
  create_backup (f_backup fl);;
  patch_original matchText replacementText fl.

(** Lines 47-76 as the script has them. *)
Definition apply (fl : apply_faults) : io unit :=
  apply_rule original_mouse_interval modified_mouse_interval fl.

(** Lines 80-87.  The arguments [source], [target] and [env] that SCons
    passes are not used by the body. *)
Definition restore_backup (f_copy f_remove : fault) : io unit :=
  print "PlatformIO: Build finished. Restoring original usb_desc.h from backup...";;
  found ← os_path_exists backup_header_path;
  if found : bool then
    shutil_copy f_copy backup_header_path original_header_path;;
    os_remove f_remove backup_header_path;;
    print "PlatformIO: Original file restored."
  else
    print "PlatformIO: Warning: Backup file not found, cannot restore.".

(** The top level of the script, lines 30-76; line 90 then registers
    [restore_backup] with the build. *)
Definition script (f_copy f_remove : fault) (fl : apply_faults) : io unit :=
  print "PlatformIO: Running 8kHz patch script (Direct Inject method)...";;
  ensureClean f_copy f_remove;;
  apply fl.

(** *** The protocol's invariant *)

(** [pristine] is the content of the vendor header before any patching. *)
Definition backup_pristine (pristine : string) (fs : gmap string string) : Prop :=
  ∀ b, fs !! backup_header_path = Some b → b = pristine.

(** The pristine content is never lost: the backup holds it whenever it
    exists, and the header itself holds it when there is no backup. *)
Definition guard_inv (pristine : string) (fs : gmap string string) : Prop :=
  backup_pristine pristine fs ∧
  (fs !! backup_header_path = None → fs !! original_header_path = Some pristine).

(** Follows the spec's words for [ensureClean] and [restore], to be
    compared with the two blocks of the script: "if backupPath exists,
    copy it over originalPath (overwrite) and delete backupPath";
    otherwise nothing changes. *)
Definition spec_restore (fs : gmap string string) : gmap string string :=
  match fs !! backup_header_path with
  | Some b => delete backup_header_path (<[original_header_path := b]> fs)
  | None => fs
  end.

End Script.

(** *** Concrete inputs used by the examples *)

Definition demo_dir : string :=
  "/home/dev/.platformio/packages/framework-arduinoteensy".

Definition demo_header : string :=
  "#define MOUSE_SIZE            8
#define MOUSE_INTERVAL        2
#define MOUSE_ENDPOINT        5".

Definition demo_patched : string :=
  "#define MOUSE_SIZE            8
#define MOUSE_INTERVAL        1
#define MOUSE_ENDPOINT        5".

(** A freshly installed package: the header, no backup. *)
Definition demo_world : world :=
  World {[ original_header_path demo_dir := demo_header ]} [].

(** A build that was killed between patching and restoring. *)
Definition crashed_world : world :=
  World {[ original_header_path demo_dir := demo_patched;
           backup_header_path demo_dir := demo_header ]} [].

(** A header of another framework version, without the line to patch. *)
Definition other_header : string :=
  "#define MOUSE_SIZE            8
#define MOUSE_INTERVAL        4".

Definition other_world : world :=
  World {[ original_header_path demo_dir := other_header ]} [].

(** The package directory lacks the header. *)
Definition empty_world : world := World ∅ [].

(** The header together with a source file of the same directory. *)
Definition usb_desc_c : string :=
  os_path_join (core_dir demo_dir) "usb_desc.c".

Definition neighbour_world : world :=
  World {[ original_header_path demo_dir := demo_header;
           usb_desc_c := "#include <usb_desc.h>" ]} [].

(** The header is read-only: opening it for writing fails, both for the
    patch and for the copy that would undo it. *)
Definition eacces : string := "[Errno 13] Permission denied".
Definition readonly_faults : apply_faults :=
  ApplyFaults NoFault NoFault None (Fail eacces None) (Fail eacces None) NoFault.

Definition enospc : string := "[Errno 28] No space left on device".

(** The disk fills up while the backup is copied: an empty backup file is
    left behind. *)
Definition partial_backup_faults : apply_faults :=
  ApplyFaults (Fail enospc (Some "")) NoFault None NoFault NoFault NoFault.

(** The disk fills up while the patched header is written: the header is
    left truncated; the undo then goes through. *)
Definition disk_full_faults : apply_faults :=
  ApplyFaults NoFault NoFault None (Fail enospc (Some "")) NoFault NoFault.

(** The header holds bytes that the locale's codec cannot decode. *)
Definition codec_error : string :=
  "'utf-8' codec can't decode byte 0xe9 in position 31: invalid continuation byte".
Definition undecodable_faults : apply_faults :=
  ApplyFaults NoFault NoFault (Some codec_error) NoFault NoFault NoFault.

(** * Facts about the string operations *)

Module PyStrFacts.
Import PyStr.

#[local] Arguments String.append !_ _ / : simpl nomatch.

Lemma startswith_app p v : startswith p (p +:+ v) = true.
Proof. induction p as [|a p IH]; simpl; [done|]. by rewrite Ascii.eqb_refl. Qed.

Lemma startswith_inv p s : startswith p s = true → s = p +:+ drop (String.length p) s.
Proof.
  revert s. induction p as [|a p IH]; intros [|b s]; simpl; try done.
  destruct (Ascii.eqb a b) eqn:E; [|done].
  apply Ascii.eqb_eq in E as ->. intros H. f_equal. by apply IH.
Qed.

Lemma startswith_spec p s : startswith p s = true ↔ ∃ v, s = p +:+ v.
Proof.
  split.
  - intros H. eexists. by apply startswith_inv.
  - intros [v ->]. apply startswith_app.
Qed.

Lemma app_assoc_s (a b c : string) : (a +:+ b) +:+ c = a +:+ (b +:+ c).
Proof. induction a as [|x a IH]; simpl; [done|]. by rewrite IH. Qed.

Lemma app_empty_r (a : string) : a +:+ "" = a.
Proof. induction a as [|x a IH]; simpl; [done|]. by rewrite IH. Qed.

Lemma length_app_s (a b : string) :
  String.length (a +:+ b) = String.length a + String.length b.
Proof. induction a as [|x a IH]; simpl; [done|]. by rewrite IH. Qed.

Lemma length_occurrence_lt (old v : string) :
  old ≠ "" → String.length v < String.length (old +:+ v).
Proof. rewrite length_app_s. destruct old; [done|simpl; lia]. Qed.

Lemma drop_app (a b : string) : drop (String.length a) (a +:+ b) = b.
Proof. induction a as [|x a IH]; simpl; [by destruct b|done]. Qed.

Lemma app_inv_head_s (p a b : string) : p +:+ a = p +:+ b → a = b.
Proof. induction p as [|x p IH]; simpl; [done|]. intros [= H]. by apply IH. Qed.

(** [old in s] holds exactly when [s] splits around an occurrence. *)
Lemma contains_spec old s :
  contains old s = true ↔ ∃ u v, s = u +:+ old +:+ v.
Proof.
  split.
  - induction s as [|c s IH]; simpl.
    + intros H. exists "", "". by destruct old.
    + intros [H|H]%orb_true_iff.
      * apply startswith_spec in H as [v Hv]. by exists "", v.
      * destruct (IH H) as (u & v & ->). by exists (String c u), v.
  - intros (u & v & ->). induction u as [|c u IH]; simpl.
    + destruct (old +:+ v) as [|c t] eqn:E.
      * destruct old; [done|discriminate].
      * simpl. by rewrite <- E, startswith_app.
    + rewrite IH. apply orb_true_r.
Qed.

Lemma contains_self s : contains s s = true.
Proof. apply contains_spec. exists "", "". simpl. by rewrite app_empty_r. Qed.

Lemma contains_nonempty old s : contains old s = false → old ≠ "".
Proof. intros H ->. by destruct s. Qed.

Lemma contains_cons_false old c s :
  contains old (String c s) = false →
  startswith old (String c s) = false ∧ contains old s = false.
Proof. simpl. by intros ?%orb_false_iff. Qed.

(** *** Unfolding [replace] *)

Lemma replace_from_skip old new k s :
  old ≠ "" → replace_from old new k s = replace old new (drop k s).
Proof.
  intros Hne. revert s. induction k as [|k IH]; intros s.
  - by destruct s.
  - destruct s as [|c s]; simpl.
    + by destruct old.
    + apply IH.
Qed.

Lemma replace_nil old new : old ≠ "" → replace old new "" = "".
Proof. by destruct old. Qed.

Lemma replace_empty_old new s :
  replace "" new s = new +:+ match s with
                            | "" => ""
                            | String c s' => String c (replace "" new s')
                            end.
Proof. destruct s; simpl; [|done]. unfold replace. simpl. by rewrite app_empty_r. Qed.

(** At an occurrence: emit [new], continue after the occurrence. *)
Lemma replace_here old new v :
  old ≠ "" → replace old new (old +:+ v) = new +:+ replace old new v.
Proof.
  intros Hne. destruct old as [|a old']; [done|].
  unfold replace at 1. simpl. rewrite Ascii.eqb_refl, startswith_app.
  rewrite replace_from_skip by done. by rewrite drop_app.
Qed.

(** Not at an occurrence: emit the character, continue with the next. *)
Lemma replace_next old new c s :
  startswith old (String c s) = false →
  replace old new (String c s) = String c (replace old new s).
Proof.
  intros H. destruct old as [|a old']; [done|].
  unfold replace at 1. cbn [replace_from]. by rewrite H.
Qed.

(** *** What [replace] does *)

(** Without an occurrence nothing changes. *)
Lemma replace_absent old new s : contains old s = false → replace old new s = s.
Proof.
  induction s as [|c s IH]; intros H.
  - apply replace_nil. by apply contains_nonempty in H.
  - apply contains_cons_false in H as [H1 H2].
    rewrite replace_next by done. by rewrite IH.
Qed.

Lemma contains_app_l x u s : contains x s = true → contains x (u +:+ s) = true.
Proof.
  intros (a & b & ->)%contains_spec. apply contains_spec.
  exists (u +:+ a), b. by rewrite app_assoc_s.
Qed.

Lemma contains_app_here x v : contains x (x +:+ v) = true.
Proof. apply contains_spec. by exists "", v. Qed.

(** With an occurrence, the result shows the replacement text. *)
Lemma contains_replace old new s :
  contains old s = true → contains new (replace old new s) = true.
Proof.
  destruct old as [|a old'].
  - intros _. rewrite replace_empty_old. apply contains_app_here.
  - induction s as [|c s IH]; [done|]. intros H.
    destruct (startswith (String a old') (String c s)) eqn:E.
    + apply startswith_spec in E as [v ->].
      rewrite replace_here by done. apply contains_app_here.
    + rewrite replace_next by done. cbn [contains] in H. rewrite E in H.
      cbn [orb] in H.
      apply (contains_app_l _ (String c "")). by apply IH.
Qed.

Lemma concat_cons2 sep (x y : string) l :
  String.concat sep (x :: y :: l) = x +:+ sep +:+ String.concat sep (y :: l).
Proof. done. Qed.

(** [replace] cuts the text at the occurrences of [old], scanning from
    the left, and joins the pieces with [new]: no piece contains [old],
    so every occurrence the scan meets is replaced. *)
Lemma replace_pieces old new s :
  old ≠ "" →
  ∃ pieces : list string,
    s = String.concat old pieces ∧
    replace old new s = String.concat new pieces ∧
    Forall (λ p, contains old p = false) pieces ∧
    pieces ≠ [].
Proof.
  intros Hne. remember (String.length s) as n eqn:Hn.
  revert s Hn. induction n as [n IH] using lt_wf_ind. intros s Hn.
  destruct s as [|c s].
  - exists [""]. rewrite replace_nil by done. repeat split; try done.
    constructor; [by destruct old|done].
  - destruct (startswith old (String c s)) eqn:E.
    + apply startswith_spec in E as [v E]. rewrite E in *.
      assert (String.length v < n) as Hlt
        by (subst n; by apply length_occurrence_lt).
      destruct (IH _ Hlt v eq_refl) as (ps & H1 & H2 & H3 & H4).
      exists ("" :: ps). rewrite replace_here by done.
      destruct ps as [|p ps]; [done|]. repeat split; try done.
      * by rewrite concat_cons2, <- H1.
      * by rewrite concat_cons2, <- H2.
      * constructor; [by destruct old|done].
    + assert (String.length s < n) as Hlt by (subst n; simpl; lia).
      destruct (IH _ Hlt s eq_refl) as (ps & H1 & H2 & H3 & H4).
      destruct ps as [|p ps]; [done|].
      exists (String c p :: ps). rewrite replace_next by done.
      repeat split; try done.
      * rewrite H1 at 1. destruct ps; [done|]. by rewrite !concat_cons2.
      * rewrite H2. destruct ps; [done|]. by rewrite !concat_cons2.
      * apply Forall_cons in H3 as [Hp Hps]. constructor; [|done].
        cbn [contains]. rewrite Hp, orb_false_r.
        destruct (startswith old (String c p)) eqn:F; [|done].
        apply startswith_spec in F as [v F].
        assert (startswith old (String c s) = true) as G; [|congruence].
        apply startswith_spec. rewrite H1. destruct ps as [|q ps].
        -- by exists v.
        -- exists (v +:+ old +:+ String.concat old (q :: ps)).
           rewrite concat_cons2.
           change (String c (p +:+ ?x)) with (String c p +:+ x).
           by rewrite F, app_assoc_s.
Qed.

(** *** Rules that cannot re-create their match text *)

Lemma startswith_diverge a b x : diverge a b = true → startswith a (b +:+ x) = false.
Proof.
  revert b. induction a as [|c a IH]; intros [|d b]; simpl; try done.
  destruct (Ascii.eqb c d); [apply IH|done].
Qed.

(** A text free of [h] in front hides no occurrence of a pattern that
    starts with [h]. *)
Lemma contains_skip_headless h o t s :
  has_char h t = false →
  contains (String h o) (t +:+ s) = contains (String h o) s.
Proof.
  induction t as [|c t IH]; [done|]. simpl.
  intros [H1 H2]%orb_false_iff. rewrite H1. simpl. by apply IH.
Qed.

(** [replace] leaves every [h]-free prefix test unchanged when both texts
    of the rule start with [h]. *)
Lemma startswith_replace_headless h o n t s :
  has_char h t = false →
  startswith t (replace (String h o) (String h n) s) = startswith t s.
Proof.
  revert t. induction s as [|c s IH]; intros t Ht; [done|].
  destruct (startswith (String h o) (String c s)) eqn:E.
  - pose proof E as [v Hv]%startswith_spec. rewrite Hv.
    rewrite replace_here by done. simpl.
    destruct t as [|d t]; [done|]. simpl in *.
    apply orb_false_iff in Ht as [Ht _].
    rewrite Ascii.eqb_sym in Ht. by rewrite Ht.
  - rewrite replace_next by done.
    destruct t as [|d t]; [done|]. simpl in *.
    apply orb_false_iff in Ht as [_ Ht].
    destruct (Ascii.eqb d c); [by apply IH|done].
Qed.

Lemma stable_rule_no_match old new s :
  stable_rule old new = true → contains old (replace old new s) = false.
Proof.
  destruct old as [|h o]; [done|]. destruct new as [|h' n]; [done|]. simpl.
  intros [[[Hh Ho]%andb_true_iff Hn]%andb_true_iff Hd]%andb_true_iff.
  apply Ascii.eqb_eq in Hh as <-.
  apply negb_true_iff in Ho. apply negb_true_iff in Hn.
  remember (String.length s) as k eqn:Hk.
  revert s Hk. induction k as [k IH] using lt_wf_ind. intros s Hk.
  destruct s as [|c s]; [done|].
  destruct (startswith (String h o) (String c s)) eqn:E.
  - pose proof E as [v Hv]%startswith_spec. rewrite Hv.
    rewrite replace_here by done.
    change (String h n +:+ ?x) with (String h (n +:+ x)).
    cbn [contains startswith]. rewrite Ascii.eqb_refl.
    rewrite startswith_diverge by done. simpl.
    rewrite contains_skip_headless by done.
    apply (IH (String.length v)); [|done].
    subst k. rewrite Hv. by apply length_occurrence_lt.
  - rewrite replace_next by done. cbn [contains].
    rewrite (IH (String.length s)), orb_false_r; [|subst k; simpl; lia|done].
    cbn [startswith] in *. destruct (Ascii.eqb h c); [|done].
    by rewrite startswith_replace_headless.
Qed.

End PyStrFacts.

(** * Facts about the script *)

Section Protocol.

Variable framework_dir : string.

Abbreviation orig := (original_header_path framework_dir).
Abbreviation bak := (backup_header_path framework_dir).

Import PyStr PyStrFacts.

Lemma paths_distinct : orig ≠ bak.
Proof.
  unfold original_header_path, backup_header_path.
  generalize (core_dir framework_dir). intros d. unfold os_path_join.
  change (startswith "/" "usb_desc.h") with false.
  change (startswith "/" "usb_desc.h.bak") with false. cbv iota.
  destruct (_ || _)%bool; intros H%app_inv_head_s; discriminate.
Qed.

Lemma paths_distinct' : bak ≠ orig.
Proof. intros H. by apply paths_distinct. Qed.

#[local] Arguments original_header_path : simpl never.
#[local] Arguments backup_header_path : simpl never.

(** Unfold the script down to the file map. *)
Ltac unfold_script :=
  unfold script, apply, apply_rule, patch_original, create_backup,
    ensureClean, restore_backup, try_except_IOError, exit, raise, print,
    shutil_copy, os_remove, read_text, write_text, os_path_exists,
    exec, outcome, mbind, mret, io_mbind, io_mret, io_bind, io_ret,
    set_file, del_file in *.

Ltac paths_ne := first [apply paths_distinct | apply paths_distinct'].

(** One step of symbolic execution: resolve the next lookup. *)
Ltac step :=
  match goal with
  | H : ?m !! ?k = _ |- context [?m !! ?k] => rewrite H
  | |- context [<[?k:=_]> _ !! ?k] => rewrite lookup_insert_eq
  | |- context [<[_:=_]> _ !! _] => rewrite lookup_insert_ne by paths_ne
  | |- context [delete ?k _ !! ?k] => rewrite lookup_delete_eq
  | |- context [delete _ _ !! _] => rewrite lookup_delete_ne by paths_ne
  | |- context [bool_decide (is_Some (Some ?x))] =>
      rewrite (bool_decide_eq_true_2 (is_Some (Some x))) by eauto
  | |- context [bool_decide (is_Some None)] =>
      rewrite (bool_decide_eq_false_2 (is_Some (@None string)))
        by (apply is_Some_None)
  | H : ?b = _ |- context [if ?b then _ else _] => rewrite H
  end; cbn.

Ltac run := unfold_script; cbn; repeat step.

(** Equality of file maps, path by path. *)
Ltac map_ext :=
  apply map_eq; intros ?p;
  repeat (rewrite lookup_insert || rewrite lookup_delete);
  repeat case_decide; subst; try done; try congruence.

(** *** Restoring: [ensureClean] and [restore_backup] *)

Lemma ensureClean_files fc fr w :
  files (exec (ensureClean framework_dir fc fr) w) =
  match files w !! bak with
  | None => files w
  | Some b =>
      match fc, fr with
      | NoFault, NoFault => delete bak (<[orig := b]> (files w))
      | NoFault, Fail _ _ => <[orig := b]> (files w)
      | Fail _ None, _ => files w
      | Fail _ (Some junk), _ => <[orig := junk]> (files w)
      end
  end.
Proof.
  destruct (files w !! bak) as [b|] eqn:Hb; [|by run].
  destruct fc as [|? [?|]]; [destruct fr| |]; by run.
Qed.

Lemma restore_backup_files fc fr w :
  files (exec (restore_backup framework_dir fc fr) w) =
  files (exec (ensureClean framework_dir fc fr) w).
Proof.
  rewrite ensureClean_files.
  destruct (files w !! bak) as [b|] eqn:Hb; [|by run].
  destruct fc as [|? [?|]]; [destruct fr| |]; by run.
Qed.

Lemma restore_backup_outcome fc fr w :
  outcome (restore_backup framework_dir fc fr) w =
  outcome (ensureClean framework_dir fc fr) w.
Proof.
  destruct (files w !! bak) as [b|] eqn:Hb; [|by run].
  destruct fc as [|? [?|]]; [destruct fr| |]; by run.
Qed.

Lemma spec_restore_absent (fs : gmap string string) :
  spec_restore framework_dir fs !! bak = None.
Proof.
  unfold spec_restore. destruct (fs !! bak) eqn:Hb; [|done].
  apply lookup_delete_eq.
Qed.

(** C10.  [ensureClean] and [restore_backup] transform the file system in
    the same way and end in the same way, whatever the environment does to
    their two I/O calls; when the calls go through, both compute what the
    spec describes: a present backup is copied over the header and
    deleted, an absent one leaves every file as it is.  They differ in
    what they print. *)
Theorem ensureClean_restore_same_transformation fc fr w :
  files (exec (ensureClean framework_dir fc fr) w) =
    files (exec (restore_backup framework_dir fc fr) w) ∧
  outcome (ensureClean framework_dir fc fr) w =
    outcome (restore_backup framework_dir fc fr) w ∧
  files (exec (ensureClean framework_dir NoFault NoFault) w) =
    spec_restore framework_dir (files w) ∧
  files (exec (restore_backup framework_dir NoFault NoFault) w) =
    spec_restore framework_dir (files w).
Proof.
  rewrite restore_backup_outcome, !restore_backup_files, !ensureClean_files.
  by repeat split.
Qed.

(** C6.  When its two I/O calls go through, [ensureClean] returns
    normally.  Whenever it returns normally there is no backup afterwards
    and the header holds what the backup held (the pristine content, when
    the backup was pristine).  Without a backup it does nothing at all:
    no file changes and nothing is printed. *)
Theorem ensureClean_leaves_clean fc fr w :
  outcome (ensureClean framework_dir NoFault NoFault) w = Ret tt ∧
  (outcome (ensureClean framework_dir fc fr) w = Ret tt →
   files (exec (ensureClean framework_dir fc fr) w) !! bak = None ∧
   (∀ b, files w !! bak = Some b →
      files (exec (ensureClean framework_dir fc fr) w) !! orig = Some b) ∧
   (∀ pristine, guard_inv framework_dir pristine (files w) →
      files (exec (ensureClean framework_dir fc fr) w) !! orig = Some pristine)) ∧
  (files w !! bak = None → ensureClean framework_dir fc fr w = (Ret tt, w)).
Proof.
  split; [|split].
  - destruct (files w !! bak) as [b|] eqn:Hb; by run.
  - rewrite ensureClean_files.
    destruct (files w !! bak) as [b|] eqn:Hb.
    + destruct fc as [|? [?|]]; [destruct fr| |]; run; try done.
      intros _. split; [done|]. split.
      * by intros b' [= <-].
      * intros P [HP _]. by rewrite (HP b Hb).
    + intros _. split; [done|]. split; [done|].
      intros P [_ HP]. by apply HP.
  - intros Hb. by run.
Qed.

(** C5.  Without a backup [restore_backup] cannot fail, whatever the
    environment would do to its I/O calls: it prints its banner and the
    warning and returns, and no file changes.  Hence a second call right
    after a completed one is such a warning-only call. *)
Theorem restore_without_backup_is_safe fc fr w :
  (files w !! bak = None →
     restore_backup framework_dir fc fr w =
       (Ret tt,
        World (files w)
          (stdout w ++
           ["PlatformIO: Build finished. Restoring original usb_desc.h from backup...";
            "PlatformIO: Warning: Backup file not found, cannot restore."]))) ∧
  outcome (restore_backup framework_dir NoFault NoFault) w = Ret tt ∧
  files (exec (restore_backup framework_dir NoFault NoFault) w) !! bak = None ∧
  outcome (restore_backup framework_dir fc fr)
    (exec (restore_backup framework_dir NoFault NoFault) w) = Ret tt ∧
  files (exec (restore_backup framework_dir fc fr)
           (exec (restore_backup framework_dir NoFault NoFault) w)) =
    files (exec (restore_backup framework_dir NoFault NoFault) w).
Proof.
  assert (∀ w', files w' !! bak = None →
     restore_backup framework_dir fc fr w' =
       (Ret tt,
        World (files w')
          (stdout w' ++
           ["PlatformIO: Build finished. Restoring original usb_desc.h from backup...";
            "PlatformIO: Warning: Backup file not found, cannot restore."])))
    as Hsafe.
  { intros w' Hb. run. by rewrite <- app_assoc. }
  assert (files (exec (restore_backup framework_dir NoFault NoFault) w) !! bak
          = None) as Hgone.
  { rewrite restore_backup_files, ensureClean_files.
    destruct (files w !! bak) eqn:Hb; [by repeat step|done]. }
  split; [by apply Hsafe|]. split; [|split; [done|split]].
  - rewrite restore_backup_outcome.
    destruct (files w !! bak) eqn:Hb; by run.
  - unfold outcome. by rewrite Hsafe.
  - unfold exec at 1. by rewrite Hsafe.
Qed.

(** *** Patching: the run of [apply] when every I/O call goes through *)

Lemma apply_rule_run m r C w :
  files w !! orig = Some C →
  apply_rule framework_dir m r no_faults w =
    (Ret tt,
     if contains m C then
       World (<[orig := replace m r C]> (<[bak := C]> (files w)))
         (stdout w ++
          ["PlatformIO: Backup of original usb_desc.h created.";
           "PlatformIO: Original usb_desc.h has been patched for 8kHz."])
     else
       World (<[bak := C]> (files w))
         (stdout w ++
          ["PlatformIO: Backup of original usb_desc.h created.";
           "PlatformIO: MOUSE_INTERVAL not found or already patched. Skipping."])).
Proof.
  intros Ho. destruct (contains m C) eqn:E; run; by rewrite <- app_assoc.
Qed.

Lemma restore_backup_run b w :
  files w !! bak = Some b →
  restore_backup framework_dir NoFault NoFault w =
    (Ret tt,
     World (delete bak (<[orig := b]> (files w)))
       (stdout w ++
        ["PlatformIO: Build finished. Restoring original usb_desc.h from backup...";
         "PlatformIO: Original file restored."])).
Proof. intros Hb. run. by rewrite <- app_assoc. Qed.

(** Undoing a patch of a header that had no backup gives back the file
    system as it was. *)
Lemma undo_patch (fs : gmap string string) C c :
  fs !! orig = Some C → fs !! bak = None →
  delete bak (<[orig := C]> (<[orig := c]> (<[bak := C]> fs))) = fs.
Proof.
  intros Ho Hb. apply map_eq. intros p.
  destruct (decide (p = bak)) as [->|Hpb].
  - by rewrite lookup_delete_eq.
  - rewrite lookup_delete_ne by done.
    destruct (decide (p = orig)) as [->|Hpo].
    + by rewrite lookup_insert_eq.
    + by rewrite !lookup_insert_ne by done.
Qed.

Lemma undo_backup (fs : gmap string string) C :
  fs !! orig = Some C → fs !! bak = None →
  delete bak (<[orig := C]> (<[bak := C]> fs)) = fs.
Proof.
  intros Ho Hb. apply map_eq. intros p.
  destruct (decide (p = bak)) as [->|Hpb].
  - by rewrite lookup_delete_eq.
  - rewrite lookup_delete_ne by done.
    destruct (decide (p = orig)) as [->|Hpo].
    + by rewrite lookup_insert_eq.
    + by rewrite !lookup_insert_ne by done.
Qed.

(** C1.  From a state without a backup, [apply] followed by
    [restore_backup] leaves the header with exactly the content [C] it had
    and leaves no backup; indeed the whole file system is as before. *)
Theorem apply_restore_roundtrip m r C w :
  files w !! orig = Some C →
  files w !! bak = None →
  contains m C = true →
  outcome (apply_rule framework_dir m r no_faults) w = Ret tt ∧
  outcome (restore_backup framework_dir NoFault NoFault)
    (exec (apply_rule framework_dir m r no_faults) w) = Ret tt ∧
  files (exec (restore_backup framework_dir NoFault NoFault)
           (exec (apply_rule framework_dir m r no_faults) w)) !! orig = Some C ∧
  files (exec (restore_backup framework_dir NoFault NoFault)
           (exec (apply_rule framework_dir m r no_faults) w)) !! bak = None ∧
  files (exec (restore_backup framework_dir NoFault NoFault)
           (exec (apply_rule framework_dir m r no_faults) w)) = files w.
Proof.
  intros Ho Hb Hm. unfold outcome, exec.
  rewrite (apply_rule_run m r C w Ho), Hm. cbn [fst snd].
  rewrite (restore_backup_run C) by (cbn; by repeat step). cbn.
  rewrite undo_patch by done. by repeat split.
Qed.

(** C3.  When the header does not contain the match text, [apply] returns
    normally after printing the "Skipping" line, leaves the header's
    content as it is and creates the backup with a copy of it, so that
    [restore_backup] afterwards finds a backup, returns normally and
    leaves the header with the same content and no backup. *)
Theorem apply_absent_keeps_content m r C w :
  files w !! orig = Some C →
  contains m C = false →
  outcome (apply_rule framework_dir m r no_faults) w = Ret tt ∧
  files (exec (apply_rule framework_dir m r no_faults) w) = <[bak := C]> (files w) ∧
  files (exec (apply_rule framework_dir m r no_faults) w) !! orig = Some C ∧
  files (exec (apply_rule framework_dir m r no_faults) w) !! bak = Some C ∧
  stdout (exec (apply_rule framework_dir m r no_faults) w) =
    (stdout w ++
     ["PlatformIO: Backup of original usb_desc.h created.";
      "PlatformIO: MOUSE_INTERVAL not found or already patched. Skipping."])%list ∧
  outcome (restore_backup framework_dir NoFault NoFault)
    (exec (apply_rule framework_dir m r no_faults) w) = Ret tt ∧
  files (exec (restore_backup framework_dir NoFault NoFault)
           (exec (apply_rule framework_dir m r no_faults) w)) !! orig = Some C ∧
  files (exec (restore_backup framework_dir NoFault NoFault)
           (exec (apply_rule framework_dir m r no_faults) w)) !! bak = None.
Proof.
  intros Ho Hm. unfold outcome, exec.
  rewrite (apply_rule_run m r C w Ho), Hm. cbn [fst snd].
  rewrite (restore_backup_run C) by (cbn; by repeat step). cbn.
  repeat split; try done; by repeat step.
Qed.

(** C8.  When the header contains the match text, [apply] writes back
    Python's [content.replace(matchText, replacementText)] and keeps the
    old content in the backup.  For a non-empty match text that result is
    the old content cut at the occurrences of the match text, scanning
    from the left, and joined again with the replacement text; no piece
    between two cuts contains the match text.  The patched header contains
    the replacement text, and [restore_backup] afterwards puts the old
    content back and removes the backup.  The script's rule is the
    instance [apply]. *)
Theorem apply_patches_all_occurrences m r C w :
  files w !! orig = Some C →
  contains m C = true →
  outcome (apply_rule framework_dir m r no_faults) w = Ret tt ∧
  files (exec (apply_rule framework_dir m r no_faults) w) =
    <[orig := replace m r C]> (<[bak := C]> (files w)) ∧
  (m ≠ "" →
   ∃ pieces : list string,
     C = String.concat m pieces ∧
     replace m r C = String.concat r pieces ∧
     Forall (λ p, contains m p = false) pieces ∧
     (2 ≤ length pieces)%nat) ∧
  contains r (replace m r C) = true ∧
  files (exec (restore_backup framework_dir NoFault NoFault)
           (exec (apply_rule framework_dir m r no_faults) w)) !! orig = Some C ∧
  files (exec (restore_backup framework_dir NoFault NoFault)
           (exec (apply_rule framework_dir m r no_faults) w)) !! bak = None.
Proof.
  intros Ho Hm. unfold outcome, exec.
  rewrite (apply_rule_run m r C w Ho), Hm. cbn [fst snd].
  rewrite (restore_backup_run C) by (cbn; by repeat step). cbn.
  split; [done|]. split; [done|]. split; [|split; [|split]].
  - intros Hne.
    destruct (replace_pieces m r C Hne) as (ps & H1 & H2 & H3 & H4).
    exists ps. repeat split; try done.
    destruct ps as [|p [|q ps]]; [done| |simpl; lia].
    apply Forall_cons in H3 as [Hp _]. simpl in H1. congruence.
  - by apply contains_replace.
  - by repeat step.
  - by repeat step.
Qed.

(** C9.  When the header left by a first [apply] contains the replacement
    text and no longer the match text, a second [apply] right after it
    returns normally, prints the "Skipping" line and leaves the header's
    content as the first call left it. *)
Theorem second_apply_is_noop m r c1 w0 :
  files (exec (apply_rule framework_dir m r no_faults) w0) !! orig = Some c1 →
  contains r c1 = true →
  contains m c1 = false →
  outcome (apply_rule framework_dir m r no_faults)
    (exec (apply_rule framework_dir m r no_faults) w0) = Ret tt ∧
  files (exec (apply_rule framework_dir m r no_faults)
           (exec (apply_rule framework_dir m r no_faults) w0)) !! orig = Some c1 ∧
  stdout (exec (apply_rule framework_dir m r no_faults)
            (exec (apply_rule framework_dir m r no_faults) w0)) =
    (stdout (exec (apply_rule framework_dir m r no_faults) w0) ++
     ["PlatformIO: Backup of original usb_desc.h created.";
      "PlatformIO: MOUSE_INTERVAL not found or already patched. Skipping."])%list.
Proof.
  set (w1 := exec (apply_rule framework_dir m r no_faults) w0).
  intros Ho _ Hm. unfold outcome, exec.
  rewrite (apply_rule_run m r c1 w1 Ho), Hm. cbn [fst snd files stdout].
  repeat split; by repeat step.
Qed.

(** *** When I/O fails *)

Ltac lookup_cases p :=
  destruct (decide (p = bak)) as [->|?];
  [|destruct (decide (p = orig)) as [->|?]];
  repeat first
    [ rewrite lookup_delete_eq
    | rewrite lookup_insert_eq
    | rewrite lookup_delete_ne by first [done | paths_ne]
    | rewrite lookup_insert_ne by first [done | paths_ne] ];
  try done.

(** C7.  When the copy of the header to the backup fails (the header is
    missing, or the environment makes the copy fail), [apply] prints the
    backup error and leaves with [exit(1)]: the header is not read or
    written, its content and every file other than the backup are as
    before. *)
Theorem backup_failure_aborts m r fl w :
  files w !! orig = None ∨ f_backup fl ≠ NoFault →
  outcome (apply_rule framework_dir m r fl) w = Raise (SystemExit 1) ∧
  files (exec (apply_rule framework_dir m r fl) w) !! orig = files w !! orig ∧
  (∀ p, p ≠ bak →
     files (exec (apply_rule framework_dir m r fl) w) !! p = files w !! p) ∧
  ∃ e, stdout (exec (apply_rule framework_dir m r fl) w) =
         (stdout w ++ ["Error: Could not create backup file: " +:+ e])%list.
Proof.
  intros H. destruct fl as [fb frd fdec fwr fuc fur]. cbn [f_backup] in H.
  destruct (files w !! orig) as [C|] eqn:Ho.
  - destruct H as [H|H]; [done|].
    destruct fb as [|msg [junk|]]; [done| |]; run;
      (split; [done|]); (split; [by repeat step|]);
      (split; [|by eexists]); intros p Hp; try done;
      by rewrite lookup_insert_ne.
  - run. split; [done|]. split; [done|]. split; [done|by eexists].
Qed.

Ltac fault_cases f := destruct f as [|? [?|]].

Ltac solve_inv :=
  unfold guard_inv, backup_pristine; cbn; repeat step;
  (split; [intros ?; try done; congruence | try done; intros; by repeat step]).

(** C4 (amended).  When the backup was created and then the read, or the
    write, of the header fails with an [IOError], [apply] prints the error
    and attempts the undo: copy the backup over the header, delete the
    backup.  The run never returns normally, and the old content [C] is
    never lost: the backup holds it whenever there still is one, the
    header when there is none.  When both undo calls go through, the
    header holds [C], no backup remains, the file system is as before the
    call (the old backup, if any, apart) and [apply] leaves with
    [exit(1)].  When the undo copy or the delete itself fails, that
    [IOError] propagates and the backup stays in place, holding [C].
    A read that fails to decode the header raises [UnicodeDecodeError],
    which the handler does not catch: nothing is undone, the error
    propagates, the header is untouched and the backup stays, holding
    [C]. *)
Theorem failed_patch_is_undone m r fl C w :
  files w !! orig = Some C →
  f_backup fl = NoFault →
  (f_read fl ≠ NoFault ∨
   (f_decode fl = None ∧ contains m C = true ∧ f_write fl ≠ NoFault) →
   (∃ e, outcome (apply_rule framework_dir m r fl) w = Raise e) ∧
   guard_inv framework_dir C (files (exec (apply_rule framework_dir m r fl) w)) ∧
   (f_undo_copy fl = NoFault → f_undo_remove fl = NoFault →
      outcome (apply_rule framework_dir m r fl) w = Raise (SystemExit 1) ∧
      files (exec (apply_rule framework_dir m r fl) w) !! orig = Some C ∧
      files (exec (apply_rule framework_dir m r fl) w) !! bak = None ∧
      files (exec (apply_rule framework_dir m r fl) w) = delete bak (files w)) ∧
   (f_undo_copy fl ≠ NoFault ∨ f_undo_remove fl ≠ NoFault →
      files (exec (apply_rule framework_dir m r fl) w) !! bak = Some C ∧
      ∃ msg, outcome (apply_rule framework_dir m r fl) w = Raise (IOError msg))) ∧
  (∀ msg, f_read fl = NoFault → f_decode fl = Some msg →
     outcome (apply_rule framework_dir m r fl) w = Raise (UnicodeDecodeError msg) ∧
     files (exec (apply_rule framework_dir m r fl) w) = <[bak := C]> (files w) ∧
     files (exec (apply_rule framework_dir m r fl) w) !! orig = Some C ∧
     files (exec (apply_rule framework_dir m r fl) w) !! bak = Some C ∧
     stdout (exec (apply_rule framework_dir m r fl) w) =
       (stdout w ++ ["PlatformIO: Backup of original usb_desc.h created."])%list).
Proof.
  intros Ho Hfb. destruct fl as [fb frd fdec fwr fuc fur].
  cbn [f_backup f_read f_decode f_write f_undo_copy f_undo_remove] in *.
  subst fb.
  assert (∀ c : string,
    delete bak (<[orig := C]> (<[orig := c]> (<[bak := C]> (files w))))
    = delete bak (files w)) as Hundo1.
  { intros c. apply map_eq. intros p. lookup_cases p. }
  assert (delete bak (<[orig := C]> (<[bak := C]> (files w)))
          = delete bak (files w)) as Hundo2.
  { apply map_eq. intros p. lookup_cases p. }
  assert (∀ (P Q R S : Prop), P → Q → R → S → P ∧ Q ∧ R ∧ S) as conj4
    by done.
  split.
  - intros Hfail.
    destruct Hfail as [Hrd|(Hdec & Hm & Hwr)];
      [fault_cases frd; [done| |]
      |subst fdec; fault_cases frd; [fault_cases fwr; [done| |]| |]];
      fault_cases fuc; fault_cases fur; run;
      (split; [by eexists|]); (split; [solve_inv|]);
      (split;
       [intros ? ?; try done; apply conj4; done
       |intros [?|?]; try done; (split; [done|by eexists])]).
  - intros msg -> ->. run. repeat split; by repeat step.
Qed.

(** *** The invariant *)

Lemma exec_seq {A B} (m : io A) (k : io B) w :
  exec (m;; k) w =
  match outcome m w with
  | Ret _ => exec k (exec m w)
  | Raise _ => exec m w
  end.
Proof.
  unfold exec, outcome, mbind, io_mbind, io_bind.
  by destruct (m w) as [[a|e] w'].
Qed.

(** Restoring keeps the invariant whatever the environment does: a failed
    copy or delete leaves the backup where it is. *)
Lemma guard_inv_ensureClean pristine fc fr w :
  guard_inv framework_dir pristine (files w) →
  guard_inv framework_dir pristine (files (exec (ensureClean framework_dir fc fr) w)).
Proof.
  intros [Hb Ho]. rewrite ensureClean_files.
  destruct (files w !! bak) as [b|] eqn:E; [|split; [done|by auto]].
  pose proof (Hb b E) as ->.
  fault_cases fc; [destruct fr| |]; solve_inv.
Qed.

Lemma guard_inv_restore_backup pristine fc fr w :
  guard_inv framework_dir pristine (files w) →
  guard_inv framework_dir pristine
    (files (exec (restore_backup framework_dir fc fr) w)).
Proof. rewrite restore_backup_files. apply guard_inv_ensureClean. Qed.

(** A completed [ensureClean] leaves no backup. *)
Lemma ensureClean_ret_clean fc fr w :
  outcome (ensureClean framework_dir fc fr) w = Ret tt →
  files (exec (ensureClean framework_dir fc fr) w) !! bak = None.
Proof.
  rewrite ensureClean_files.
  destruct (files w !! bak) as [b|] eqn:E; [|done].
  fault_cases fc; [destruct fr| |]; by run.
Qed.

(** Started without a backup, [apply] keeps the invariant, also when I/O
    fails, as long as a failing backup copy leaves no partial backup. *)
Lemma guard_inv_apply pristine m r fl w :
  (∀ msg junk, f_backup fl ≠ Fail msg (Some junk)) →
  files w !! bak = None →
  guard_inv framework_dir pristine (files w) →
  guard_inv framework_dir pristine (files (exec (apply_rule framework_dir m r fl) w)).
Proof.
  intros Hfb Hb [_ Ho]. specialize (Ho Hb).
  destruct fl as [fb frd fdec fwr fuc fur]. cbn [f_backup] in Hfb.
  destruct fb as [|msg [junk|]]; [|by destruct (Hfb msg junk)|];
    [|run; solve_inv].
  fault_cases frd;
    [destruct fdec;
       [|destruct (contains m pristine) eqn:E; [fault_cases fwr|]]| |];
    fault_cases fuc; fault_cases fur; run; solve_inv.
Qed.

Lemma guard_inv_script pristine fc fr fl w :
  (∀ msg junk, f_backup fl ≠ Fail msg (Some junk)) →
  guard_inv framework_dir pristine (files w) →
  guard_inv framework_dir pristine (files (exec (script framework_dir fc fr fl) w)).
Proof.
  intros Hfb Hinv. unfold script. rewrite exec_seq. cbn [outcome print fst].
  set (w1 := exec (print _) w).
  assert (guard_inv framework_dir pristine (files w1)) as Hinv1 by done.
  rewrite exec_seq.
  pose proof (guard_inv_ensureClean pristine fc fr w1 Hinv1) as Hinv2.
  destruct (outcome (ensureClean framework_dir fc fr) w1) as [[]|e] eqn:E;
    [|done].
  apply guard_inv_apply; [done| |done]. by apply ensureClean_ret_clean.
Qed.

(** C2 (amended).  The invariant - the backup, whenever it exists, holds
    the pristine content, and the header holds it when there is no
    backup - is kept by [ensureClean] and by [restore_backup], also when
    their I/O calls fail; it is kept by [apply] when it starts without a
    backup (the state [ensureClean] leaves), and by every run of the
    script, which restores before it backs up, also when I/O calls fail,
    unless the backup copy fails half-way and leaves a partial backup
    file. *)
Theorem pristine_backup_invariant pristine w :
  guard_inv framework_dir pristine (files w) →
  (∀ fc fr,
     guard_inv framework_dir pristine
       (files (exec (ensureClean framework_dir fc fr) w))) ∧
  (∀ fc fr,
     guard_inv framework_dir pristine
       (files (exec (restore_backup framework_dir fc fr) w))) ∧
  (∀ m r fl,
     (∀ msg junk, f_backup fl ≠ Fail msg (Some junk)) →
     files w !! bak = None →
     guard_inv framework_dir pristine
       (files (exec (apply_rule framework_dir m r fl) w))) ∧
  (∀ fc fr fl,
     (∀ msg junk, f_backup fl ≠ Fail msg (Some junk)) →
     guard_inv framework_dir pristine
       (files (exec (script framework_dir fc fr fl) w))).
Proof.
  intros Hinv. split; [intros; by apply guard_inv_ensureClean|].
  split; [intros; by apply guard_inv_restore_backup|]. split.
  - intros m r fl Hfb Hb. by apply guard_inv_apply.
  - intros fc fr fl Hfb. by apply guard_inv_script.
Qed.

(** *** The script's own rule *)

Lemma mouse_rule_stable :
  stable_rule original_mouse_interval modified_mouse_interval = true.
Proof. reflexivity. Qed.

(** For the script's rule a second [apply] never changes the header
    again, whatever the header held: the patched text has no occurrence
    of the match text. *)
Lemma apply_twice_same_original w :
  files (exec (apply framework_dir no_faults)
           (exec (apply framework_dir no_faults) w)) !! orig =
  files (exec (apply framework_dir no_faults) w) !! orig.
Proof.
  unfold apply.
  set (m := original_mouse_interval). set (r := modified_mouse_interval).
  destruct (files w !! orig) as [C|] eqn:Ho.
  - assert (∃ c1, files (exec (apply_rule framework_dir m r no_faults) w) !! orig
                  = Some c1 ∧ contains m c1 = false) as (c1 & H1 & H2).
    { unfold exec. rewrite (apply_rule_run m r C w Ho).
      destruct (contains m C) eqn:E; cbn; repeat step; eexists; split; try done.
      by apply stable_rule_no_match. }
    rewrite H1. unfold exec at 1.
    rewrite (apply_rule_run m r c1 _ H1), H2. cbn. by repeat step.
  - assert (exec (apply_rule framework_dir m r no_faults) w
            = World (files w)
                (stdout w ++
                 ["Error: Could not create backup file: " +:+ enoent orig]))
      as ->.
    { by run. }
    by run.
Qed.

(** *** The paths *)

(** The backup sits next to the header, under the header's name with
    [.bak] appended, so the two paths always differ. *)
Theorem backup_path_is_header_bak :
  backup_header_path framework_dir
    = original_header_path framework_dir +:+ ".bak" ∧
  original_header_path framework_dir ≠ backup_header_path framework_dir.
Proof.
  split; [|apply paths_distinct].
  unfold original_header_path, backup_header_path.
  generalize (core_dir framework_dir). intros d. unfold os_path_join.
  change (startswith "/" "usb_desc.h") with false.
  change (startswith "/" "usb_desc.h.bak") with false. cbv iota.
  destruct (_ || _)%bool; by rewrite ?app_assoc_s.
Qed.

(** *** Files the script never touches *)

Lemma leaves_bind {A B} p (m : io A) (k : A → io B) :
  leaves p m → (∀ a, leaves p (k a)) → leaves p (m ≫= k).
Proof.
  intros Hm Hk w. specialize (Hm w). unfold exec in *.
  unfold mbind, io_mbind, io_bind.
  destruct (m w) as [[a|e] w'] eqn:E; cbn in *; [|done].
  by rewrite <- Hm, <- (Hk a w').
Qed.

Lemma leaves_try {A} p (body : io A) handler :
  leaves p body → (∀ e, leaves p (handler e)) →
  leaves p (try_except_IOError body handler).
Proof.
  intros Hm Hk w. specialize (Hm w). unfold exec in *.
  unfold try_except_IOError.
  destruct (body w) as [[a|[msg|code|msg]] w'] eqn:E; cbn in *; try done.
  by rewrite <- Hm, <- (Hk msg w').
Qed.

Lemma leaves_ret {A} p (a : A) : leaves p (mret a).
Proof. by intros w. Qed.

Lemma leaves_print p line : leaves p (print line).
Proof. by intros w. Qed.

Lemma leaves_exit p code : leaves p (exit code).
Proof. by intros w. Qed.

Lemma leaves_exists p q : leaves p (os_path_exists q).
Proof. by intros w. Qed.

Lemma leaves_read p f d q : leaves p (read_text f d q).
Proof.
  intros w. unfold exec, read_text.
  destruct (files w !! q); [by destruct f, d|done].
Qed.

Lemma leaves_copy p f src dst : p ≠ dst → leaves p (shutil_copy f src dst).
Proof.
  intros Hp w. unfold exec, shutil_copy.
  destruct (files w !! src); [|done].
  destruct f as [|? [?|]]; cbn; try done; by rewrite lookup_insert_ne.
Qed.

Lemma leaves_write p f q c : p ≠ q → leaves p (write_text f q c).
Proof.
  intros Hp w. unfold exec, write_text.
  destruct f as [|? [?|]]; cbn; try done; by rewrite lookup_insert_ne.
Qed.

Lemma leaves_remove p f q : p ≠ q → leaves p (os_remove f q).
Proof.
  intros Hp w. unfold exec, os_remove.
  destruct (files w !! q); [|done].
  destruct f; cbn; try done. by rewrite lookup_delete_ne.
Qed.

(** Decompose a block into its calls. *)
Ltac frame :=
  repeat first
    [ apply leaves_print | apply leaves_exit | apply leaves_exists
    | apply leaves_read | apply leaves_ret
    | apply leaves_copy; done | apply leaves_write; done
    | apply leaves_remove; done
    | apply leaves_bind | apply leaves_try
    | match goal with
      | |- ∀ _, leaves _ _ => intros ?; cbv beta
      | |- leaves _ (if ?b then _ else _) => destruct b
      end ].

Lemma leaves_ensureClean p fc fr :
  p ≠ orig → p ≠ bak → leaves p (ensureClean framework_dir fc fr).
Proof. intros ? ?. unfold ensureClean. frame. Qed.

Lemma leaves_restore_backup p fc fr :
  p ≠ orig → p ≠ bak → leaves p (restore_backup framework_dir fc fr).
Proof. intros ? ?. unfold restore_backup. frame. Qed.

Lemma leaves_apply_rule p m r fl :
  p ≠ orig → p ≠ bak → leaves p (apply_rule framework_dir m r fl).
Proof.
  intros ? ?. unfold apply_rule, create_backup, patch_original. frame.
Qed.

(** The script and the cleanup action touch two paths only: whatever the
    environment does to the I/O calls and however the run ends, every
    other file holds what it held. *)
Theorem script_touches_two_paths_only p fc fr fl w :
  p ≠ orig → p ≠ bak →
  files (exec (script framework_dir fc fr fl) w) !! p = files w !! p ∧
  files (exec (restore_backup framework_dir fc fr) w) !! p = files w !! p.
Proof.
  intros Ho Hb. split; [|by apply leaves_restore_backup].
  assert (leaves p (script framework_dir fc fr fl)) as H; [|apply H].
  unfold script, apply. apply leaves_bind; [apply leaves_print|intros _].
  apply leaves_bind; [by apply leaves_ensureClean|intros _].
  by apply leaves_apply_rule.
Qed.

(** *** Whole runs of the script *)

Lemma script_run pristine w :
  guard_inv framework_dir pristine (files w) →
  outcome (script framework_dir NoFault NoFault no_faults) w = Ret tt ∧
  files (exec (script framework_dir NoFault NoFault no_faults) w) =
    if contains original_mouse_interval pristine then
      <[orig := replace original_mouse_interval modified_mouse_interval pristine]>
        (<[bak := pristine]> (<[orig := pristine]> (files w)))
    else <[bak := pristine]> (<[orig := pristine]> (files w)).
Proof.
  intros [Hb Ho].
  destruct (files w !! bak) as [b|] eqn:E.
  - pose proof (Hb b E) as ->.
    destruct (contains original_mouse_interval pristine) eqn:Hm; run;
      (split; [done|]); apply map_eq; intros p; lookup_cases p.
  - specialize (Ho eq_refl).
    destruct (contains original_mouse_interval pristine) eqn:Hm; run;
      (split; [done|]); apply map_eq; intros p; lookup_cases p.
Qed.

Lemma restore_from_inv pristine w :
  guard_inv framework_dir pristine (files w) →
  outcome (restore_backup framework_dir NoFault NoFault) w = Ret tt ∧
  files (exec (restore_backup framework_dir NoFault NoFault) w) =
    delete bak (<[orig := pristine]> (files w)).
Proof.
  intros [Hb Ho].
  destruct (files w !! bak) as [b|] eqn:E.
  - pose proof (Hb b E) as ->. by run.
  - specialize (Ho eq_refl). run. split; [done|].
    apply map_eq; intros p; lookup_cases p.
Qed.

(** A whole build cycle.  From any state that satisfies the invariant -
    a fresh header, or the leftovers of a killed build - the script
    returns normally and leaves the backup holding the pristine content
    and the header holding the patched one; [restore_backup] after it
    returns normally and leaves the header pristine, no backup, and every
    other file as it was. *)
Theorem build_cycle_restores_pristine pristine w :
  guard_inv framework_dir pristine (files w) →
  outcome (script framework_dir NoFault NoFault no_faults) w = Ret tt ∧
  files (exec (script framework_dir NoFault NoFault no_faults) w) !! bak
    = Some pristine ∧
  files (exec (script framework_dir NoFault NoFault no_faults) w) !! orig
    = Some (if contains original_mouse_interval pristine
            then replace original_mouse_interval modified_mouse_interval pristine
            else pristine) ∧
  outcome (restore_backup framework_dir NoFault NoFault)
    (exec (script framework_dir NoFault NoFault no_faults) w) = Ret tt ∧
  files (exec (restore_backup framework_dir NoFault NoFault)
           (exec (script framework_dir NoFault NoFault no_faults) w))
    = delete bak (<[orig := pristine]> (files w)).
Proof.
  intros Hinv. destruct (script_run pristine w Hinv) as [Hout Hfiles].
  pose proof (guard_inv_script pristine NoFault NoFault no_faults w
                ltac:(done) Hinv) as Hinv'.
  destruct (restore_from_inv pristine _ Hinv') as [Hout' Hfiles'].
  rewrite Hfiles', Hfiles.
  split; [done|].
  destruct (contains original_mouse_interval pristine);
    (split; [by repeat step|]); (split; [by repeat step|]);
    (split; [done|]); apply map_eq; intros p; lookup_cases p.
Qed.

(** Running the script twice, with no restore in between, leaves the
    files as one run does: the second run first restores the header from
    the backup, then backs it up and patches it again. *)
Theorem script_twice_same_files w :
  files (exec (script framework_dir NoFault NoFault no_faults)
           (exec (script framework_dir NoFault NoFault no_faults) w)) =
  files (exec (script framework_dir NoFault NoFault no_faults) w).
Proof.
  assert (∀ pristine, guard_inv framework_dir pristine (files w) →
    files (exec (script framework_dir NoFault NoFault no_faults)
             (exec (script framework_dir NoFault NoFault no_faults) w)) =
    files (exec (script framework_dir NoFault NoFault no_faults) w)) as Hinv.
  { intros P HP.
    pose proof (guard_inv_script P NoFault NoFault no_faults w ltac:(done) HP)
      as HP'.
    destruct (script_run P _ HP') as [_ ->].
    destruct (script_run P _ HP) as [_ ->].
    destruct (contains original_mouse_interval P);
      apply map_eq; intros p; lookup_cases p. }
  destruct (files w !! bak) as [b|] eqn:Hb.
  - apply (Hinv b). split; [intros b'; congruence|congruence].
  - destruct (files w !! orig) as [C|] eqn:Ho.
    + apply (Hinv C). split; [intros b'; congruence|done].
    + assert (files (exec (script framework_dir NoFault NoFault no_faults) w)
              = files w) as Hsame by (by run).
      set (w1 := exec (script framework_dir NoFault NoFault no_faults) w) in *.
      assert (files w1 !! bak = None) as Hb1 by (by rewrite Hsame).
      assert (files w1 !! orig = None) as Ho1 by (by rewrite Hsame).
      clearbody w1. by run.
Qed.

(** With neither header nor backup the script stops at the backup copy,
    whatever the environment would do to the I/O calls: it prints its
    banner and the backup error, leaves with [exit(1)] and changes no
    file. *)
Theorem script_without_header fc fr fl w :
  files w !! orig = None →
  files w !! bak = None →
  outcome (script framework_dir fc fr fl) w = Raise (SystemExit 1) ∧
  files (exec (script framework_dir fc fr fl) w) = files w ∧
  ∃ e, stdout (exec (script framework_dir fc fr fl) w) =
         (stdout w ++
          ["PlatformIO: Running 8kHz patch script (Direct Inject method)...";
           "Error: Could not create backup file: " +:+ e])%list.
Proof.
  intros Ho Hb. destruct fl as [fb frd fdec fwr fuc fur]. run.
  split; [done|]. split; [done|]. eexists. by rewrite <- app_assoc.
Qed.

(** *** The protocol under I/O failures *)

(** The pristine content survives failing I/O.  Whatever the environment
    does to the calls of [ensureClean] and [restore_backup], and to the
    calls of [apply] and of the whole script as long as a failing backup
    copy leaves no partial backup file, the invariant still holds
    afterwards: the backup, if there is one, holds the pristine content,
    and the header holds it if there is none. *)
Theorem pristine_survives_io_failure pristine m r fc fr fl w :
  guard_inv framework_dir pristine (files w) →
  (∀ msg junk, f_backup fl ≠ Fail msg (Some junk)) →
  guard_inv framework_dir pristine
    (files (exec (ensureClean framework_dir fc fr) w)) ∧
  guard_inv framework_dir pristine
    (files (exec (restore_backup framework_dir fc fr) w)) ∧
  (files w !! bak = None →
   guard_inv framework_dir pristine
     (files (exec (apply_rule framework_dir m r fl) w))) ∧
  guard_inv framework_dir pristine
    (files (exec (script framework_dir fc fr fl) w)).
Proof.
  intros Hinv Hfb. split; [by apply guard_inv_ensureClean|].
  split; [by apply guard_inv_restore_backup|]. split.
  - intros Hb. by apply guard_inv_apply.
  - by apply guard_inv_script.
Qed.

(** A failed run can be repaired.  After a run of the script that failed
    in any way (a partial backup copy apart), a [restore_backup] whose
    calls go through returns normally and leaves the header pristine and
    no backup; so does the next whole cycle, script then
    [restore_backup]. *)
Theorem failed_run_is_recoverable pristine fc fr fl w :
  guard_inv framework_dir pristine (files w) →
  (∀ msg junk, f_backup fl ≠ Fail msg (Some junk)) →
  (outcome (restore_backup framework_dir NoFault NoFault)
     (exec (script framework_dir fc fr fl) w) = Ret tt ∧
   files (exec (restore_backup framework_dir NoFault NoFault)
            (exec (script framework_dir fc fr fl) w)) !! orig = Some pristine ∧
   files (exec (restore_backup framework_dir NoFault NoFault)
            (exec (script framework_dir fc fr fl) w)) !! bak = None) ∧
  (outcome (script framework_dir NoFault NoFault no_faults)
     (exec (script framework_dir fc fr fl) w) = Ret tt ∧
   files (exec (restore_backup framework_dir NoFault NoFault)
            (exec (script framework_dir NoFault NoFault no_faults)
               (exec (script framework_dir fc fr fl) w))) !! orig
     = Some pristine ∧
   files (exec (restore_backup framework_dir NoFault NoFault)
            (exec (script framework_dir NoFault NoFault no_faults)
               (exec (script framework_dir fc fr fl) w))) !! bak = None).
Proof.
  intros Hinv Hfb.
  pose proof (guard_inv_script pristine fc fr fl w Hfb Hinv) as H1.
  set (w1 := exec (script framework_dir fc fr fl) w) in *.
  split.
  - destruct (restore_from_inv pristine w1 H1) as [-> ->].
    split; [done|]. split; by repeat step.
  - destruct (script_run pristine w1 H1) as [-> _].
    pose proof (guard_inv_script pristine NoFault NoFault no_faults w1
                  ltac:(done) H1) as H2.
    destruct (restore_from_inv pristine _ H2) as [_ ->].
    split; [done|]. split; by repeat step.
Qed.


(** What the invariant lemmas leave out.  When the backup copy raises
    after it has created the backup file, [apply] leaves with [exit(1)]
    and that file stays, holding whatever the copy got to write; the
    header is untouched.  The next [ensureClean] takes the file for a
    backup and copies it over the header. *)
Theorem partial_backup_replaces_header m r fl msg junk C w :
  files w !! orig = Some C →
  f_backup fl = Fail msg (Some junk) →
  outcome (apply_rule framework_dir m r fl) w = Raise (SystemExit 1) ∧
  files (exec (apply_rule framework_dir m r fl) w) !! orig = Some C ∧
  files (exec (apply_rule framework_dir m r fl) w) !! bak = Some junk ∧
  outcome (ensureClean framework_dir NoFault NoFault)
    (exec (apply_rule framework_dir m r fl) w) = Ret tt ∧
  files (exec (ensureClean framework_dir NoFault NoFault)
           (exec (apply_rule framework_dir m r fl) w)) !! orig = Some junk ∧
  files (exec (ensureClean framework_dir NoFault NoFault)
           (exec (apply_rule framework_dir m r fl) w)) !! bak = None.
Proof.
  intros Ho Hfb. destruct fl as [fb frd fdec fwr fuc fur]. cbn [f_backup] in Hfb.
  subst fb. run. by repeat split.
Qed.

(** *** The size of the patched header *)

Lemma replace_same_length old new s :
  old ≠ "" → String.length old = String.length new →
  String.length (replace old new s) = String.length s.
Proof.
  intros Hne Hlen. remember (String.length s) as n eqn:Hn.
  revert s Hn. induction n as [n IH] using lt_wf_ind. intros s Hn.
  destruct s as [|c s]; [by rewrite replace_nil|].
  destruct (startswith old (String c s)) eqn:E.
  - apply startswith_spec in E as [v E]. rewrite E in *.
    rewrite replace_here by done. rewrite length_app_s, <- Hlen.
    rewrite (IH (String.length v)); [by rewrite Hn, length_app_s| |done].
    subst n. by apply length_occurrence_lt.
  - rewrite replace_next by done. cbn [String.length].
    rewrite (IH (String.length s)); [done| |done]. subst n. simpl. lia.
Qed.

(** The two texts of the script's rule have the same length, so the
    [content.replace] of line 64 never changes the number of characters
    of the text it is given. *)
Theorem patch_keeps_text_length content :
  String.length
    (replace original_mouse_interval modified_mouse_interval content)
  = String.length content.
Proof. by apply replace_same_length. Qed.

End Protocol.

(** * The protocol on concrete inputs *)

Abbreviation demo_orig := (original_header_path demo_dir).
Abbreviation demo_bak := (backup_header_path demo_dir).

(** The round trip on a freshly installed header. *)
Lemma apply_restore_roundtrip_witness :
  files demo_world !! demo_orig = Some demo_header ∧
  files demo_world !! demo_bak = None ∧
  PyStr.contains original_mouse_interval demo_header = true ∧
  files (exec (restore_backup demo_dir NoFault NoFault)
           (exec (apply demo_dir no_faults) demo_world)) !! demo_orig
    = Some demo_header ∧
  files (exec (restore_backup demo_dir NoFault NoFault)
           (exec (apply demo_dir no_faults) demo_world)) !! demo_bak = None.
Proof.
  assert (files demo_world !! demo_orig = Some demo_header) as H1
    by (vm_compute; reflexivity).
  assert (files demo_world !! demo_bak = None) as H2
    by (vm_compute; reflexivity).
  assert (PyStr.contains original_mouse_interval demo_header = true) as H3
    by (vm_compute; reflexivity).
  destruct (apply_restore_roundtrip demo_dir original_mouse_interval
              modified_mouse_interval demo_header demo_world H1 H2 H3)
    as (_ & _ & H4 & H5 & _).
  exact (conj H1 (conj H2 (conj H3 (conj H4 H5)))).
Defined.

(** A second [apply] without a restore in between copies the patched
    header over the backup: the backup no longer holds the pristine
    content, which is lost. *)
Lemma second_apply_overwrites_backup :
  guard_inv demo_dir demo_header
    (files (exec (apply demo_dir no_faults) demo_world)) ∧
  files (exec (apply demo_dir no_faults)
           (exec (apply demo_dir no_faults) demo_world)) !! demo_bak
    = Some demo_patched ∧
  ¬ backup_pristine demo_dir demo_header
      (files (exec (apply demo_dir no_faults)
                (exec (apply demo_dir no_faults) demo_world))).
Proof.
  split; [|split].
  - split.
    + intros b. vm_compute. by intros [= <-].
    + vm_compute. discriminate.
  - vm_compute. reflexivity.
  - intros H. specialize (H demo_patched). vm_compute in H.
    specialize (H eq_refl). discriminate.
Qed.

(** The invariant on the state a killed build leaves, through a new run
    of the script and through a restore; and on a fresh read-only header,
    through an [apply] whose write and undo fail. *)
Lemma pristine_backup_invariant_witness :
  guard_inv demo_dir demo_header (files crashed_world) ∧
  guard_inv demo_dir demo_header
    (files (exec (script demo_dir NoFault NoFault no_faults) crashed_world)) ∧
  guard_inv demo_dir demo_header
    (files (exec (restore_backup demo_dir NoFault NoFault) crashed_world)) ∧
  guard_inv demo_dir demo_header (files demo_world) ∧
  (∀ msg junk, f_backup readonly_faults ≠ Fail msg (Some junk)) ∧
  files demo_world !! demo_bak = None ∧
  guard_inv demo_dir demo_header
    (files (exec (apply demo_dir readonly_faults) demo_world)).
Proof.
  assert (guard_inv demo_dir demo_header (files crashed_world)) as H.
  { split.
    - intros b. vm_compute. intros [= <-]. reflexivity.
    - vm_compute. discriminate. }
  destruct (pristine_backup_invariant demo_dir demo_header crashed_world H)
    as (_ & H2 & _ & H4).
  assert (∀ msg junk, f_backup no_faults ≠ Fail msg (Some junk)) as Hnf
    by discriminate.
  assert (guard_inv demo_dir demo_header (files demo_world)) as H5.
  { split.
    - intros b. vm_compute. discriminate.
    - intros _. vm_compute. reflexivity. }
  assert (∀ msg junk, f_backup readonly_faults ≠ Fail msg (Some junk)) as H6
    by discriminate.
  assert (files demo_world !! demo_bak = None) as H7
    by (vm_compute; reflexivity).
  destruct (pristine_backup_invariant demo_dir demo_header demo_world H5)
    as (_ & _ & H8 & _).
  exact (conj H (conj (H4 NoFault NoFault no_faults Hnf)
          (conj (H2 NoFault NoFault)
            (conj H5 (conj H6 (conj H7
              (H8 original_mouse_interval modified_mouse_interval
                  readonly_faults H6 H7))))))).
Defined.

(** A header without the line to patch. *)
Lemma apply_absent_keeps_content_witness :
  files other_world !! demo_orig = Some other_header ∧
  PyStr.contains original_mouse_interval other_header = false ∧
  files (exec (apply demo_dir no_faults) other_world) !! demo_orig
    = Some other_header ∧
  files (exec (apply demo_dir no_faults) other_world) !! demo_bak
    = Some other_header.
Proof.
  assert (files other_world !! demo_orig = Some other_header) as H1
    by (vm_compute; reflexivity).
  assert (PyStr.contains original_mouse_interval other_header = false) as H2
    by (vm_compute; reflexivity).
  destruct (apply_absent_keeps_content demo_dir original_mouse_interval
              modified_mouse_interval other_header other_world H1 H2)
    as (_ & _ & H3 & H4 & _).
  exact (conj H1 (conj H2 (conj H3 H4))).
Defined.

(** A read-only header: the write fails, and so does the undo copy.  The
    [IOError] of the copy propagates and the backup file stays. *)
Lemma failed_write_keeps_backup :
  files demo_world !! demo_orig = Some demo_header ∧
  f_backup readonly_faults = NoFault ∧
  PyStr.contains original_mouse_interval demo_header = true ∧
  f_write readonly_faults ≠ NoFault ∧
  outcome (apply demo_dir readonly_faults) demo_world = Raise (IOError eacces) ∧
  files (exec (apply demo_dir readonly_faults) demo_world) !! demo_bak
    = Some demo_header ∧
  files (exec (apply demo_dir readonly_faults) demo_world) !! demo_bak ≠ None.
Proof.
  repeat split; try (vm_compute; reflexivity); vm_compute; discriminate.
Qed.

(** The disk fills up during the write: the header is left truncated, the
    undo repairs it and removes the backup.  And a header that does not
    decode: nothing is undone. *)
Lemma failed_patch_is_undone_witness :
  files demo_world !! demo_orig = Some demo_header ∧
  f_backup disk_full_faults = NoFault ∧
  (f_read disk_full_faults ≠ NoFault ∨
   f_decode disk_full_faults = None ∧
   PyStr.contains original_mouse_interval demo_header = true ∧
   f_write disk_full_faults ≠ NoFault) ∧
  outcome (apply demo_dir disk_full_faults) demo_world = Raise (SystemExit 1) ∧
  files (exec (apply demo_dir disk_full_faults) demo_world) !! demo_orig
    = Some demo_header ∧
  files (exec (apply demo_dir disk_full_faults) demo_world) !! demo_bak = None ∧
  f_read undecodable_faults = NoFault ∧
  f_decode undecodable_faults = Some codec_error ∧
  outcome (apply demo_dir undecodable_faults) demo_world
    = Raise (UnicodeDecodeError codec_error) ∧
  files (exec (apply demo_dir undecodable_faults) demo_world) !! demo_bak
    = Some demo_header.
Proof.
  assert (files demo_world !! demo_orig = Some demo_header) as H1
    by (vm_compute; reflexivity).
  assert (f_backup disk_full_faults = NoFault) as H2 by reflexivity.
  assert (f_read disk_full_faults ≠ NoFault ∨
          f_decode disk_full_faults = None ∧
          PyStr.contains original_mouse_interval demo_header = true ∧
          f_write disk_full_faults ≠ NoFault) as H3.
  { right. split; [reflexivity|]. split; [vm_compute; reflexivity|discriminate]. }
  destruct (failed_patch_is_undone demo_dir original_mouse_interval
              modified_mouse_interval disk_full_faults demo_header demo_world
              H1 H2) as (Hio & _).
  destruct (Hio H3) as (_ & _ & H4 & _).
  destruct (H4 eq_refl eq_refl) as (H5 & H6 & H7 & _).
  assert (f_backup undecodable_faults = NoFault) as H8 by reflexivity.
  assert (f_read undecodable_faults = NoFault) as H9 by reflexivity.
  assert (f_decode undecodable_faults = Some codec_error) as H10 by reflexivity.
  destruct (failed_patch_is_undone demo_dir original_mouse_interval
              modified_mouse_interval undecodable_faults demo_header demo_world
              H1 H8) as (_ & Hdec).
  destruct (Hdec codec_error H9 H10) as (H11 & _ & _ & H12 & _).
  exact (conj H1 (conj H2 (conj H3 (conj H5 (conj H6 (conj H7
          (conj H9 (conj H10 (conj H11 H12))))))))).
Defined.

(** [restore_backup] on a header that was never backed up, with an
    environment that would fail every copy. *)
Lemma restore_without_backup_is_safe_witness :
  files demo_world !! demo_bak = None ∧
  restore_backup demo_dir (Fail eacces None) (Fail eacces None) demo_world =
    (Ret tt,
     World (files demo_world)
       (stdout demo_world ++
        ["PlatformIO: Build finished. Restoring original usb_desc.h from backup...";
         "PlatformIO: Warning: Backup file not found, cannot restore."])).
Proof.
  assert (files demo_world !! demo_bak = None) as H1
    by (vm_compute; reflexivity).
  destruct (restore_without_backup_is_safe demo_dir (Fail eacces None)
              (Fail eacces None) demo_world) as (H2 & _).
  exact (conj H1 (H2 H1)).
Defined.

(** [ensureClean] after a killed build. *)
Lemma ensureClean_leaves_clean_witness :
  outcome (ensureClean demo_dir NoFault NoFault) crashed_world = Ret tt ∧
  files crashed_world !! demo_bak = Some demo_header ∧
  files (exec (ensureClean demo_dir NoFault NoFault) crashed_world) !! demo_bak
    = None ∧
  files (exec (ensureClean demo_dir NoFault NoFault) crashed_world) !! demo_orig
    = Some demo_header.
Proof.
  assert (files crashed_world !! demo_bak = Some demo_header) as H1
    by (vm_compute; reflexivity).
  destruct (ensureClean_leaves_clean demo_dir NoFault NoFault crashed_world)
    as (H0 & H & _).
  destruct (H H0) as (H2 & H3 & _).
  exact (conj H0 (conj H1 (conj H2 (H3 demo_header H1)))).
Defined.

(** The header is missing: the backup copy fails. *)
Lemma backup_failure_aborts_witness :
  (files empty_world !! demo_orig = None ∨ f_backup no_faults ≠ NoFault) ∧
  outcome (apply demo_dir no_faults) empty_world = Raise (SystemExit 1) ∧
  files (exec (apply demo_dir no_faults) empty_world) !! demo_orig
    = files empty_world !! demo_orig.
Proof.
  assert (files empty_world !! demo_orig = None ∨ f_backup no_faults ≠ NoFault)
    as H1 by (left; vm_compute; reflexivity).
  destruct (backup_failure_aborts demo_dir original_mouse_interval
              modified_mouse_interval no_faults empty_world H1)
    as (H2 & H3 & _).
  exact (conj H1 (conj H2 H3)).
Defined.

(** The concrete scenario: the script's rule on a header with the line
    [#define MOUSE_INTERVAL        2]. *)
Lemma apply_patches_all_occurrences_witness :
  files demo_world !! demo_orig = Some demo_header ∧
  PyStr.contains original_mouse_interval demo_header = true ∧
  files (exec (apply demo_dir no_faults) demo_world) =
    <[demo_orig := PyStr.replace original_mouse_interval
                     modified_mouse_interval demo_header]>
      (<[demo_bak := demo_header]> (files demo_world)) ∧
  PyStr.contains modified_mouse_interval
    (PyStr.replace original_mouse_interval modified_mouse_interval demo_header)
    = true ∧
  files (exec (restore_backup demo_dir NoFault NoFault)
           (exec (apply demo_dir no_faults) demo_world)) !! demo_orig
    = Some demo_header ∧
  files (exec (restore_backup demo_dir NoFault NoFault)
           (exec (apply demo_dir no_faults) demo_world)) !! demo_bak = None.
Proof.
  assert (files demo_world !! demo_orig = Some demo_header) as H1
    by (vm_compute; reflexivity).
  assert (PyStr.contains original_mouse_interval demo_header = true) as H2
    by (vm_compute; reflexivity).
  destruct (apply_patches_all_occurrences demo_dir original_mouse_interval
              modified_mouse_interval demo_header demo_world H1 H2)
    as (_ & H3 & _ & H4 & H5 & H6).
  exact (conj H1 (conj H2 (conj H3 (conj H4 (conj H5 H6))))).
Defined.

(** The patched header on its own line: what the concrete scenario reads
    after [apply]. *)
Example demo_header_patched :
  PyStr.replace original_mouse_interval modified_mouse_interval demo_header
  = demo_patched.
Proof. reflexivity. Qed.

(** A second [apply] on the header the first one patched. *)
Lemma second_apply_is_noop_witness :
  files (exec (apply demo_dir no_faults) demo_world) !! demo_orig
    = Some demo_patched ∧
  PyStr.contains modified_mouse_interval demo_patched = true ∧
  PyStr.contains original_mouse_interval demo_patched = false ∧
  files (exec (apply demo_dir no_faults)
           (exec (apply demo_dir no_faults) demo_world)) !! demo_orig
    = Some demo_patched.
Proof.
  assert (files (exec (apply demo_dir no_faults) demo_world) !! demo_orig
          = Some demo_patched) as H1 by (vm_compute; reflexivity).
  assert (PyStr.contains modified_mouse_interval demo_patched = true) as H2
    by (vm_compute; reflexivity).
  assert (PyStr.contains original_mouse_interval demo_patched = false) as H3
    by (vm_compute; reflexivity).
  destruct (second_apply_is_noop demo_dir original_mouse_interval
              modified_mouse_interval demo_patched demo_world H1 H2 H3)
    as (_ & H4 & _).
  exact (conj H1 (conj H2 (conj H3 H4))).
Defined.

(** Why [guard_inv_apply] asks for a backup copy that does not fail
    half-way: a partial backup is taken for a real one by the next run,
    which copies it over the header. *)
Remark partial_backup_is_restored :
  outcome (apply demo_dir partial_backup_faults) demo_world
    = Raise (SystemExit 1) ∧
  files (exec (apply demo_dir partial_backup_faults) demo_world) !! demo_bak
    = Some "" ∧
  files (exec (script demo_dir NoFault NoFault no_faults)
           (exec (apply demo_dir partial_backup_faults) demo_world)) !! demo_bak
    = Some "".
Proof. repeat split; vm_compute; reflexivity. Qed.

(** * The added properties on concrete inputs *)

(** A whole cycle after a killed build. *)
Lemma build_cycle_restores_pristine_witness :
  guard_inv demo_dir demo_header (files crashed_world) ∧
  files (exec (script demo_dir NoFault NoFault no_faults) crashed_world)
    !! demo_orig = Some demo_patched ∧
  files (exec (restore_backup demo_dir NoFault NoFault)
           (exec (script demo_dir NoFault NoFault no_faults) crashed_world))
    = delete demo_bak (<[demo_orig := demo_header]> (files crashed_world)).
Proof.
  assert (guard_inv demo_dir demo_header (files crashed_world)) as H.
  { split.
    - intros b. vm_compute. intros [= <-]. reflexivity.
    - vm_compute. discriminate. }
  destruct (build_cycle_restores_pristine demo_dir demo_header crashed_world H)
    as (_ & _ & H1 & _ & H2).
  exact (conj H (conj H1 H2)).
Defined.

(** A file next to the header, through a run whose write and undo fail. *)
Lemma script_touches_two_paths_only_witness :
  usb_desc_c ≠ demo_orig ∧ usb_desc_c ≠ demo_bak ∧
  files (exec (script demo_dir NoFault NoFault readonly_faults) neighbour_world)
    !! usb_desc_c = files neighbour_world !! usb_desc_c.
Proof.
  assert (usb_desc_c ≠ demo_orig) as H1 by (vm_compute; discriminate).
  assert (usb_desc_c ≠ demo_bak) as H2 by (vm_compute; discriminate).
  destruct (script_touches_two_paths_only demo_dir usb_desc_c NoFault NoFault
              readonly_faults neighbour_world H1 H2) as (H3 & _).
  exact (conj H1 (conj H2 H3)).
Defined.

(** The script in a package directory without the header. *)
Lemma script_without_header_witness :
  files empty_world !! demo_orig = None ∧
  files empty_world !! demo_bak = None ∧
  outcome (script demo_dir NoFault NoFault no_faults) empty_world
    = Raise (SystemExit 1) ∧
  files (exec (script demo_dir NoFault NoFault no_faults) empty_world)
    = files empty_world.
Proof.
  assert (files empty_world !! demo_orig = None) as H1
    by (vm_compute; reflexivity).
  assert (files empty_world !! demo_bak = None) as H2
    by (vm_compute; reflexivity).
  destruct (script_without_header demo_dir NoFault NoFault no_faults
              empty_world H1 H2) as (H3 & H4 & _).
  exact (conj H1 (conj H2 (conj H3 H4))).
Defined.

(** The read-only header: the run fails, the invariant stays. *)
Lemma pristine_survives_io_failure_witness :
  guard_inv demo_dir demo_header (files demo_world) ∧
  (∀ msg junk, f_backup readonly_faults ≠ Fail msg (Some junk)) ∧
  guard_inv demo_dir demo_header
    (files (exec (script demo_dir NoFault NoFault readonly_faults) demo_world)).
Proof.
  assert (guard_inv demo_dir demo_header (files demo_world)) as H1.
  { split.
    - intros b. vm_compute. discriminate.
    - intros _. vm_compute. reflexivity. }
  assert (∀ msg junk, f_backup readonly_faults ≠ Fail msg (Some junk)) as H2
    by discriminate.
  destruct (pristine_survives_io_failure demo_dir demo_header
              original_mouse_interval modified_mouse_interval NoFault NoFault
              readonly_faults demo_world H1 H2) as (_ & _ & _ & H).
  exact (conj H1 (conj H2 H)).
Defined.

(** The read-only header, made writable again: a restore repairs the
    failed run. *)
Lemma failed_run_is_recoverable_witness :
  guard_inv demo_dir demo_header (files demo_world) ∧
  (∀ msg junk, f_backup readonly_faults ≠ Fail msg (Some junk)) ∧
  files (exec (restore_backup demo_dir NoFault NoFault)
           (exec (script demo_dir NoFault NoFault readonly_faults) demo_world))
    !! demo_orig = Some demo_header ∧
  files (exec (restore_backup demo_dir NoFault NoFault)
           (exec (script demo_dir NoFault NoFault readonly_faults) demo_world))
    !! demo_bak = None.
Proof.
  assert (guard_inv demo_dir demo_header (files demo_world)) as H1.
  { split.
    - intros b. vm_compute. discriminate.
    - intros _. vm_compute. reflexivity. }
  assert (∀ msg junk, f_backup readonly_faults ≠ Fail msg (Some junk)) as H2
    by discriminate.
  destruct (failed_run_is_recoverable demo_dir demo_header NoFault NoFault
              readonly_faults demo_world H1 H2) as ((_ & H3 & H4) & _).
  exact (conj H1 (conj H2 (conj H3 H4))).
Defined.


(** The disk fills up during the backup copy. *)
Lemma partial_backup_replaces_header_witness :
  files demo_world !! demo_orig = Some demo_header ∧
  f_backup partial_backup_faults = Fail enospc (Some "") ∧
  files (exec (apply demo_dir partial_backup_faults) demo_world) !! demo_bak
    = Some "" ∧
  files (exec (ensureClean demo_dir NoFault NoFault)
           (exec (apply demo_dir partial_backup_faults) demo_world)) !! demo_orig
    = Some "".
Proof.
  assert (files demo_world !! demo_orig = Some demo_header) as H1
    by (vm_compute; reflexivity).
  assert (f_backup partial_backup_faults = Fail enospc (Some "")) as H2
    by reflexivity.
  destruct (partial_backup_replaces_header demo_dir original_mouse_interval
              modified_mouse_interval partial_backup_faults enospc ""
              demo_header demo_world H1 H2) as (_ & _ & H3 & _ & H4 & _).
  exact (conj H1 (conj H2 (conj H3 H4))).
Defined.
